(** * memoryRAG: the conversation store, the root component and the setup script

    Three parts of the repository are modelled, each in a module of its own:

    - [Setup]: [setup.sh], as a program of a small shell monad over a file
      tree, the set of commands the shell can find, and its output;
    - [Frontend]: [src/App.tsx], as a function from the client store to the
      React element it returns;
    - [Backend]: the Conversation Store of the Python backend, which is not
      among the sources and is modelled from the design document. *)

From stdpp Require Import gmap strings list fin_maps.
From Stdlib Require Import ZArith.


(* ===================================================================== *)
(** * setup.sh                                                            *)
(* ===================================================================== *)

Module Setup.

(** ** The machine the script runs on *)

(** A node of the file tree: a regular file with its content, or a
    directory.  Paths are lists of components from the root; the root itself
    is the empty path and always exists.  Symbolic links and permissions are
    left out. *)
Inductive Node :=
| File (content : string)
| Dir.

(** What a run of the script can read or change: the shell's working
    directory, the file tree, the command names [command -v] finds, the lines
    written to standard output, and the external programs started so far
    (each with its arguments, oldest first). *)
Record World := mkWorld {
  cwd : list string;
  fs : gmap (list string) Node;
  commands : gset string;
  stdout : list string;
  spawned : list (list string)
}.

Definition with_cwd (d : list string) (w : World) : World :=
  mkWorld d (fs w) (commands w) (stdout w) (spawned w).

Definition with_commands (c : gset string) (w : World) : World :=
  mkWorld (cwd w) (fs w) c (stdout w) (spawned w).

Definition with_stdout (o : list string) (w : World) : World :=
  mkWorld (cwd w) (fs w) (commands w) o (spawned w).

(** An external program has run: the file tree is what it left, and the
    program is added to the log. *)
Definition after_program (argv : list string) (m : gmap (list string) Node)
    (w : World) : World :=
  mkWorld (cwd w) m (commands w) (stdout w) (spawned w ++ [argv]).

(** A command either hands its exit status to the next command, or ends the
    shell with [exit]. *)
Inductive Outcome (A : Type) :=
| Continue (a : A) (w : World)
| Exited (code : nat) (w : World).

Arguments Continue {A} a w.
Arguments Exited {A} code w.

Definition Sh (A : Type) : Type := World → Outcome A.

Definition ret {A} (a : A) : Sh A := λ w, Continue a w.

Definition bind {A B} (c : Sh A) (k : A → Sh B) : Sh B :=
  λ w, match c w with
       | Continue a w' => k a w'
       | Exited code w' => Exited code w'
       end.

(** [c1 ;> c2]: two commands on successive lines.  The script does not set
    [-e], so the status of [c1] is dropped. *)
Definition seq {A B} (c1 : Sh A) (c2 : Sh B) : Sh B := bind c1 (λ _, c2).

Notation "c1 ;> c2" := (seq c1 c2) (at level 65, right associativity).

Definition world_of {A} (o : Outcome A) : World :=
  match o with
  | Continue _ w => w
  | Exited _ w => w
  end.

(** The status the shell process ends with: the argument of [exit], or the
    status of the last command. *)
Definition exit_code (o : Outcome nat) : nat :=
  match o with
  | Continue st _ => st
  | Exited code _ => code
  end.

(** ** Builtins *)

Definition echo (line : string) : Sh nat :=
  λ w, Continue 0 (with_stdout (stdout w ++ [line]) w).

Definition exit (code : nat) : Sh nat := λ w, Exited code w.

(** [command -v name &> /dev/null] *)
Definition command_v (name : string) : Sh nat :=
  λ w, Continue (if bool_decide (name ∈ commands w) then 0 else 1) w.

(** [[ -f name ]]: [name] is a regular file of the working directory. *)
Definition test_f (name : string) : Sh nat :=
  λ w, Continue (match fs w !! (cwd w ++ [name]) with
                 | Some (File _) => 0
                 | _ => 1
                 end) w.

(** [! c] *)
Definition not_ (c : Sh nat) : Sh nat :=
  bind c (λ st, ret (match st with 0 => 1 | _ => 0 end)).

(** [if c; then a; else b; fi] *)
Definition if_ (c : Sh nat) (a b : Sh nat) : Sh nat :=
  bind c (λ st, match st with 0 => a | _ => b end).

(** An [if] without [else]: status 0 when the condition fails. *)
Definition when_ (c : Sh nat) (a : Sh nat) : Sh nat := if_ c a (ret 0).

(** [cd dir] for a single component, or [cd ..]. *)
Definition cd (dir : string) : Sh nat :=
  λ w, if String.eqb dir ".." then Continue 0 (with_cwd (removelast (cwd w)) w)
       else match fs w !! (cwd w ++ [dir]) with
            | Some Dir => Continue 0 (with_cwd (cwd w ++ [dir]) w)
            | _ => Continue 1 w
            end.

(** ** Programs *)

(** What [cp src dst] does to the file tree, with both names relative to
    [dir]: a regular file is copied onto [dst], or into it when [dst] is a
    directory; anything else is refused with status 1. *)
Definition cp_files (src dst : string) (dir : list string)
    (m : gmap (list string) Node) : gmap (list string) Node * nat :=
  match m !! (dir ++ [src]) with
  | Some (File c) =>
      match m !! (dir ++ [dst]) with
      | Some Dir =>
          match m !! (dir ++ [dst; src]) with
          | Some Dir => (m, 1)
          | _ => (<[dir ++ [dst; src] := File c]> m, 0)
          end
      | _ => (<[dir ++ [dst] := File c]> m, 0)
      end
  | _ => (m, 1)
  end.

Definition cp (src dst : string) : Sh nat :=
  λ w, if bool_decide ("cp" ∈ commands w) then
         let '(m, st) := cp_files src dst (cwd w) (fs w) in
         Continue st (after_program ["cp"; src; dst] m w)
       else Continue 127 w.

(** ** A machine to run the script on *)

(** Installers that do what they usually do to the file tree:
    [python -m venv venv] creates [venv/] and [venv/bin/activate], and
    [npm install] creates [node_modules/]. *)
Definition installers (argv dir : list string) (m : gmap (list string) Node) :
    gmap (list string) Node * nat :=
  if bool_decide (drop 1 argv = ["-m"; "venv"; "venv"]) then
    (<[dir ++ ["venv"; "bin"; "activate"] := File "export PATH"]>
       (<[dir ++ ["venv"] := Dir]> m), 0)
  else if bool_decide (head argv = Some "npm") then
    (<[dir ++ ["node_modules"] := Dir]> m, 0)
  else (m, 0).

(** Sourcing [activate] makes [pip] available. *)
Definition activated (script : string) (cmds : gset string) : gset string :=
  cmds ∪ {["pip"]}.

(** A checkout whose backend already has a [.env]. *)
Definition checkout : World :=
  mkWorld ["repo"]
    (<[["repo"; "backend"; ".env"] := File "OPENAI_API_KEY=sk-live"]>
       (<[["repo"; "backend"; "env_example.txt"] := File "OPENAI_API_KEY="]>
          (<[["repo"; "backend"] := Dir]> ∅)))
    {["python3"; "node"; "cp"; "npm"]} [] [].

(** The same checkout on a machine without Node.js. *)
Definition checkout_no_node : World :=
  mkWorld ["repo"] (fs checkout) {["python3"; "cp"]} [] [].

(** The shell inside [backend/] of a checkout without [.env], on a machine
    with a system-wide [pip]. *)
Definition in_backend : World :=
  mkWorld ["repo"; "backend"]
    (delete ["repo"; "backend"; ".env"] (fs checkout))
    {["python3"; "node"; "cp"; "npm"; "pip"]} [] [].

(** The same, in a checkout that has lost its template. *)
Definition in_backend_no_template : World :=
  mkWorld ["repo"; "backend"] (<[["repo"; "backend"] := Dir]> ∅)
    (commands in_backend) [] [].

(** ** The script *)

Section Script.

(** The programs the script starts ([python3 -m venv], [pip], [npm]) are not
    part of the repository: [extern argv dir m] is the file tree such a
    program leaves and its status, when started with arguments [argv] in
    directory [dir] on the tree [m]. *)
Variable extern :
  list string → list string → gmap (list string) Node →
  gmap (list string) Node * nat.

(** [sourced script cmds]: the commands the shell finds after it has sourced
    a file with content [script].  The file sourced is [venv/bin/activate],
    which [python -m venv] writes; it is taken to change the command search
    path and nothing else of the machine. *)
Variable sourced : string → gset string → gset string.

(** A simple command whose first word is an external program: status 127
    when the shell does not find it. *)
Definition run (argv : list string) : Sh nat :=
  λ w, match argv with
       | prog :: _ =>
           if bool_decide (prog ∈ commands w) then
             let '(m, st) := extern argv (cwd w) (fs w) in
             Continue st (after_program argv m w)
           else Continue 127 w
       | [] => Continue 0 w
       end.

(** [source file] *)
Definition source (file : list string) : Sh nat :=
  λ w, match fs w !! (cwd w ++ file) with
       | Some (File script) =>
           Continue 0 (with_commands (sourced script (commands w)) w)
       | _ => Continue 1 w
       end.

(** Lines 7-11. *)
Definition check_python : Sh nat :=
  when_ (not_ (command_v "python3"))
    (echo "❌ Python 3 is required but not installed. Please install Python 3.8 or higher." ;>
     exit 1).

(** Lines 13-17. *)
Definition check_node : Sh nat :=
  when_ (not_ (command_v "node"))
    (echo "❌ Node.js is required but not installed. Please install Node.js 16 or higher." ;>
     exit 1).

(** Lines 25-35. *)
Definition create_venv : Sh nat :=
  if_ (command_v "python3.12")
    (echo "✅ Using Python 3.12 for better compatibility" ;>
     run ["python3.12"; "-m"; "venv"; "venv"])
    (if_ (command_v "python3.11")
       (echo "✅ Using Python 3.11" ;>
        run ["python3.11"; "-m"; "venv"; "venv"])
       (echo "⚠️  Using default Python 3" ;>
        run ["python3"; "-m"; "venv"; "venv"])).

(** Lines 45-51. *)
Definition create_env_file : Sh nat :=
  if_ (not_ (test_f ".env"))
    (cp "env_example.txt" ".env" ;>
     echo "📝 Created .env file. Please edit it with your API keys.")
    (echo "⚠️  .env file already exists").

(** Lines 21-53. *)
Definition setup_backend : Sh nat :=
  echo "📦 Setting up Python backend..." ;>
  cd "backend" ;>
  create_venv ;>
  source ["venv"; "bin"; "activate"] ;>
  run ["pip"; "install"; "--upgrade"; "pip"] ;>
  run ["pip"; "install"; "-r"; "requirements.txt"] ;>
  create_env_file ;>
  cd "..".

(** Lines 55-57. *)
Definition setup_frontend : Sh nat :=
  echo "📦 Setting up React frontend..." ;>
  run ["npm"; "install"; "--legacy-peer-deps"].

(** Lines 59-69. *)
Definition next_steps : Sh nat :=
  echo "✅ Setup complete!" ;>
  echo EmptyString ;>
  echo "📋 Next steps:" ;>
  echo "1. Edit backend/.env with your API keys" ;>
  echo "2. Start the backend: cd backend && python run_server.py" ;>
  echo "3. Start the frontend: npm run dev" ;>
  echo EmptyString ;>
  echo "🌐 The app will be available at:" ;>
  echo "   Frontend: http://localhost:3000" ;>
  echo "   Backend API: http://localhost:8000" ;>
  echo "   API Docs: http://localhost:8000/docs".

(** The whole file. *)
Definition setup_sh : Sh nat :=
  echo "🚀 Setting up Multi-Model Chat Interface..." ;>
  check_python ;>
  check_node ;>
  echo "✅ Python and Node.js found" ;>
  setup_backend ;>
  setup_frontend ;>
  next_steps.

(** ** What the properties speak of *)

(** The interpreter lines 25-35 choose. *)
Definition venv_python (w : World) : string :=
  if bool_decide ("python3.12" ∈ commands w) then "python3.12"
  else if bool_decide ("python3.11" ∈ commands w) then "python3.11"
  else "python3".

(** From every start the command hands over to the next one. *)
Definition NoExit {A} (c : Sh A) : Prop :=
  ∀ w, ∃ a w', c w = Continue a w'.

(** [R] holds between the world a command starts in and the one it leaves,
    from every start. *)
Definition Respects {A} (R : relation World) (c : Sh A) : Prop :=
  ∀ w, R w (world_of (c w)).

(** The shell is in the same directory. *)
Definition same_cwd (w w' : World) : Prop := cwd w' = cwd w.

(** The command hands over in the parent of the directory it started in. *)
Definition EndsInParent {A} (c : Sh A) : Prop :=
  ∀ w, ∃ a w', c w = Continue a w' ∧ cwd w' = removelast (cwd w).

(** Every regular file named [.env] of [w], in whatever directory, is a
    file of [w'] with the same content. *)
Definition keeps_env_files (w w' : World) : Prop :=
  ∀ p c, last p = Some ".env" →
         fs w !! p = Some (File c) → fs w' !! p = Some (File c).

(** The shell finds the same commands. *)
Definition same_commands (w w' : World) : Prop := commands w' = commands w.

(** The programs a command starts, in order, are among those of [f w], in
    order: nothing else is started, and nothing twice. *)
Definition Starts {A} (f : World → list (list string)) (c : Sh A) : Prop :=
  ∀ w, ∃ l, l `sublist_of` f w
            ∧ spawned (world_of (c w)) = spawned w ++ l.

(** [f] looks at the commands the shell finds and at nothing else. *)
Definition CommandsOnly (f : World → list (list string)) : Prop :=
  ∀ w w', commands w' = commands w → f w' = f w.

(** The command lines of the script that start a program. *)
Definition venv_line (w : World) : list string :=
  [venv_python w; "-m"; "venv"; "venv"].

Definition pip_upgrade_line : list string :=
  ["pip"; "install"; "--upgrade"; "pip"].

Definition pip_requirements_line : list string :=
  ["pip"; "install"; "-r"; "requirements.txt"].

Definition cp_line : list string := ["cp"; "env_example.txt"; ".env"].

Definition npm_line : list string := ["npm"; "install"; "--legacy-peer-deps"].

(** Lines 37-43, the three lines between the venv and the [.env] block. *)
Definition install_dependencies : Sh nat :=
  source ["venv"; "bin"; "activate"] ;>
  run pip_upgrade_line ;>
  run pip_requirements_line.

(** The file tree lines 45-51 leave. *)
Definition env_step_fs (w : World) : gmap (list string) Node :=
  match fs w !! (cwd w ++ [".env"]) with
  | Some (File _) => fs w
  | _ => if bool_decide ("cp" ∈ commands w)
         then (cp_files "env_example.txt" ".env" (cwd w) (fs w)).1
         else fs w
  end.

(** The line lines 25-35 print about their choice. *)
Definition venv_message (w : World) : string :=
  if bool_decide ("python3.12" ∈ commands w)
  then "✅ Using Python 3.12 for better compatibility"
  else if bool_decide ("python3.11" ∈ commands w)
  then "✅ Using Python 3.11"
  else "⚠️  Using default Python 3".

(** The two lines lines 45-51 can print. *)
Definition env_messages : list string :=
  ["📝 Created .env file. Please edit it with your API keys.";
   "⚠️  .env file already exists"].

(** Lines 59-69 as printed. *)
Definition closing_lines : list string :=
  ["✅ Setup complete!";
   EmptyString;
   "📋 Next steps:";
   "1. Edit backend/.env with your API keys";
   "2. Start the backend: cd backend && python run_server.py";
   "3. Start the frontend: npm run dev";
   EmptyString;
   "🌐 The app will be available at:";
   "   Frontend: http://localhost:3000";
   "   Backend API: http://localhost:8000";
   "   API Docs: http://localhost:8000/docs"].

(** The two complaints of lines 7-17. *)
Definition python_complaint : string :=
  "❌ Python 3 is required but not installed. Please install Python 3.8 or higher.".

Definition node_complaint : string :=
  "❌ Node.js is required but not installed. Please install Node.js 16 or higher.".

(** The command hands over, having printed lines [f w] allows. *)
Definition Says {A} (f : World → list string → Prop) (c : Sh A) : Prop :=
  ∀ w, ∃ a w' l, c w = Continue a w' ∧ f w l ∧ stdout w' = stdout w ++ l.

(** ** What each block computes *)

Lemma seq_continue {A B} (c1 : Sh A) (c2 : Sh B) w a w' :
  c1 w = Continue a w' → (c1 ;> c2) w = c2 w'.
Proof. intros Hc. unfold seq, bind. by rewrite Hc. Qed.

Lemma seq_exited {A B} (c1 : Sh A) (c2 : Sh B) w code w' :
  c1 w = Exited code w' → (c1 ;> c2) w = Exited code w'.
Proof. intros Hc. unfold seq, bind. by rewrite Hc. Qed.

Lemma check_python_found w :
  "python3" ∈ commands w → check_python w = Continue 0 w.
Proof.
  intros Hin. unfold check_python, when_, if_, not_, bind, command_v, ret.
  by rewrite bool_decide_eq_true_2.
Qed.

Lemma check_python_missing w :
  "python3" ∉ commands w →
  check_python w =
    Exited 1 (with_stdout (stdout w ++
      ["❌ Python 3 is required but not installed. Please install Python 3.8 or higher."]) w).
Proof.
  intros Hout. unfold check_python, when_, if_, not_, bind, command_v, ret.
  by rewrite bool_decide_eq_false_2.
Qed.

Lemma check_node_found w :
  "node" ∈ commands w → check_node w = Continue 0 w.
Proof.
  intros Hin. unfold check_node, when_, if_, not_, bind, command_v, ret.
  by rewrite bool_decide_eq_true_2.
Qed.

Lemma check_node_missing w :
  "node" ∉ commands w →
  check_node w =
    Exited 1 (with_stdout (stdout w ++
      ["❌ Node.js is required but not installed. Please install Node.js 16 or higher."]) w).
Proof.
  intros Hout. unfold check_node, when_, if_, not_, bind, command_v, ret.
  by rewrite bool_decide_eq_false_2.
Qed.

Lemma create_env_file_present w c :
  fs w !! (cwd w ++ [".env"]) = Some (File c) →
  create_env_file w =
    Continue 0 (with_stdout (stdout w ++ ["⚠️  .env file already exists"]) w).
Proof.
  intros Hf. unfold create_env_file, if_, not_, bind, test_f, ret.
  by rewrite Hf.
Qed.

Lemma create_env_file_absent w :
  (∀ c, fs w !! (cwd w ++ [".env"]) ≠ Some (File c)) →
  create_env_file w =
    (cp "env_example.txt" ".env" ;>
     echo "📝 Created .env file. Please edit it with your API keys.") w.
Proof.
  intros Hf. unfold create_env_file, if_, not_, bind, test_f, ret.
  destruct (fs w !! (cwd w ++ [".env"])) as [[c|]|] eqn:E; try done.
  by destruct (Hf c).
Qed.

(** ** Commands that cannot end the shell *)

Lemma NoExit_ret {A} (a : A) : NoExit (ret a).
Proof. intros w. by eexists _, _. Qed.

Lemma NoExit_bind {A B} (c : Sh A) (k : A → Sh B) :
  NoExit c → (∀ a, NoExit (k a)) → NoExit (bind c k).
Proof.
  intros Hc Hk w. destruct (Hc w) as (a & w' & Hcw).
  unfold bind. rewrite Hcw. apply Hk.
Qed.

Lemma NoExit_seq {A B} (c1 : Sh A) (c2 : Sh B) :
  NoExit c1 → NoExit c2 → NoExit (c1 ;> c2).
Proof. intros H1 H2. apply NoExit_bind; [done | by intros _]. Qed.

Lemma NoExit_not (c : Sh nat) : NoExit c → NoExit (not_ c).
Proof. intros Hc. apply NoExit_bind; [done | intros st; apply NoExit_ret]. Qed.

Lemma NoExit_if (c a b : Sh nat) :
  NoExit c → NoExit a → NoExit b → NoExit (if_ c a b).
Proof. intros Hc Ha Hb. apply NoExit_bind; [done | by intros [|st]]. Qed.

Lemma NoExit_echo line : NoExit (echo line).
Proof. intros w. by eexists _, _. Qed.

Lemma NoExit_command_v name : NoExit (command_v name).
Proof. intros w. by eexists _, _. Qed.

Lemma NoExit_test_f name : NoExit (test_f name).
Proof. intros w. by eexists _, _. Qed.

Lemma NoExit_cd dir : NoExit (cd dir).
Proof.
  intros w. unfold cd. destruct (String.eqb dir ".."); [by eexists _, _|].
  destruct (fs w !! (cwd w ++ [dir])) as [[c|]|]; by eexists _, _.
Qed.

Lemma NoExit_cp src dst : NoExit (cp src dst).
Proof.
  intros w. unfold cp. destruct (bool_decide ("cp" ∈ commands w)); [|by eexists _, _].
  destruct (cp_files src dst (cwd w) (fs w)). by eexists _, _.
Qed.

Lemma NoExit_source file : NoExit (source file).
Proof.
  intros w. unfold source.
  destruct (fs w !! (cwd w ++ file)) as [[c|]|]; by eexists _, _.
Qed.

Lemma NoExit_run argv : NoExit (run argv).
Proof.
  intros w. unfold run. destruct argv as [|prog args]; [by eexists _, _|].
  destruct (bool_decide (prog ∈ commands w)); [|by eexists _, _].
  destruct (extern (prog :: args) (cwd w) (fs w)). by eexists _, _.
Qed.

Create HintDb noexit.
#[local] Hint Resolve NoExit_ret NoExit_seq NoExit_not NoExit_if NoExit_echo
  NoExit_command_v NoExit_test_f NoExit_cd NoExit_cp NoExit_source
  NoExit_run : noexit.

Lemma NoExit_setup_backend : NoExit setup_backend.
Proof. unfold setup_backend, create_venv, create_env_file. auto 20 with noexit. Qed.

Lemma NoExit_setup_frontend : NoExit setup_frontend.
Proof. unfold setup_frontend. auto with noexit. Qed.

(** ** Relations every step of a command respects *)

Section Respects.

Context (R : relation World) `{!PreOrder R}.

Lemma Respects_ret {A} (a : A) : Respects R (ret a).
Proof. intros w. simpl. reflexivity. Qed.

Lemma Respects_bind {A B} (c : Sh A) (k : A → Sh B) :
  Respects R c → (∀ a, Respects R (k a)) → Respects R (bind c k).
Proof.
  intros Hc Hk w. unfold bind. specialize (Hc w).
  destruct (c w) as [a w'|code w']; simpl in *; [|done].
  trans w'; [done | apply Hk].
Qed.

Lemma Respects_seq {A B} (c1 : Sh A) (c2 : Sh B) :
  Respects R c1 → Respects R c2 → Respects R (c1 ;> c2).
Proof. intros H1 H2. apply Respects_bind; [done | by intros _]. Qed.

Lemma Respects_not (c : Sh nat) : Respects R c → Respects R (not_ c).
Proof. intros Hc. apply Respects_bind; [done | intros st; apply Respects_ret]. Qed.

Lemma Respects_if (c a b : Sh nat) :
  Respects R c → Respects R a → Respects R b → Respects R (if_ c a b).
Proof. intros Hc Ha Hb. apply Respects_bind; [done | by intros [|st]]. Qed.

Lemma Respects_when (c a : Sh nat) :
  Respects R c → Respects R a → Respects R (when_ c a).
Proof. intros Hc Ha. apply Respects_if; [done.. | apply Respects_ret]. Qed.

Lemma Respects_exit code : Respects R (exit code).
Proof. intros w. simpl. reflexivity. Qed.

Lemma Respects_command_v name : Respects R (command_v name).
Proof. intros w. simpl. reflexivity. Qed.

Lemma Respects_test_f name : Respects R (test_f name).
Proof. intros w. simpl. reflexivity. Qed.

End Respects.

(** ** The working directory *)

#[local] Instance same_cwd_preorder : PreOrder same_cwd.
Proof. split; [done | intros w1 w2 w3 H12 H23; unfold same_cwd in *; congruence]. Qed.

Lemma same_cwd_echo line : Respects same_cwd (echo line).
Proof. by intros w. Qed.

Lemma same_cwd_cp src dst : Respects same_cwd (cp src dst).
Proof.
  intros w. unfold cp. destruct (bool_decide ("cp" ∈ commands w)); [|done].
  by destruct (cp_files src dst (cwd w) (fs w)).
Qed.

Lemma same_cwd_source file : Respects same_cwd (source file).
Proof.
  intros w. unfold source. by destruct (fs w !! (cwd w ++ file)) as [[c|]|].
Qed.

Lemma same_cwd_run argv : Respects same_cwd (run argv).
Proof.
  intros w. unfold run. destruct argv as [|prog args]; [done|].
  destruct (bool_decide (prog ∈ commands w)); [|done].
  by destruct (extern (prog :: args) (cwd w) (fs w)).
Qed.

Lemma EndsInParent_cd_up : EndsInParent (cd "..").
Proof. intros w. by eexists _, _. Qed.

Lemma EndsInParent_seq {A B} (c1 : Sh A) (c2 : Sh B) :
  NoExit c1 → Respects same_cwd c1 → EndsInParent c2 → EndsInParent (c1 ;> c2).
Proof.
  intros Hno Hsame Hup w. destruct (Hno w) as (a & w1 & H1).
  specialize (Hsame w). rewrite H1 in Hsame. simpl in Hsame.
  destruct (Hup w1) as (b & w2 & H2 & Hcwd).
  exists b, w2. split; [by rewrite (seq_continue _ _ _ _ _ H1)|].
  by rewrite Hcwd, Hsame.
Qed.

Create HintDb cwd.
#[local] Hint Resolve same_cwd_preorder Respects_ret Respects_seq Respects_not
  Respects_if Respects_when Respects_command_v Respects_test_f same_cwd_echo
  same_cwd_cp same_cwd_source same_cwd_run EndsInParent_cd_up
  EndsInParent_seq : cwd.

(** ** Files named [.env] *)

Lemma last_two {A} (l : list A) (a b : A) : last (l ++ [a; b]) = Some b.
Proof. by rewrite last_app. Qed.

#[local] Instance keeps_env_files_preorder : PreOrder keeps_env_files.
Proof.
  split.
  - by intros w p c _ H.
  - intros w1 w2 w3 H12 H23 p c Hp Hf. apply H23, H12; done.
Qed.

Lemma keeps_same_fs w w' : fs w' = fs w → keeps_env_files w w'.
Proof. intros Heq p c _ Hf. by rewrite Heq. Qed.

Lemma keeps_echo line : Respects keeps_env_files (echo line).
Proof. intros w. by apply keeps_same_fs. Qed.

Lemma keeps_cd dir : Respects keeps_env_files (cd dir).
Proof.
  intros w. unfold cd. destruct (String.eqb dir "..").
  - by apply keeps_same_fs.
  - destruct (fs w !! (cwd w ++ [dir])) as [[c|]|]; by apply keeps_same_fs.
Qed.

Lemma keeps_source file : Respects keeps_env_files (source file).
Proof.
  intros w. unfold source.
  destruct (fs w !! (cwd w ++ file)) as [[c|]|]; by apply keeps_same_fs.
Qed.

(** The guarded copy of lines 46-51 keeps them, although [cp] alone would
    not: the copy lands on [.env] only where no regular file has that name,
    and otherwise inside a directory of that name. *)
Lemma keeps_create_env_file : Respects keeps_env_files create_env_file.
Proof.
  intros w p c Hp Hf.
  destruct (fs w !! (cwd w ++ [".env"])) as [[c0|]|] eqn:E.
  - by rewrite (create_env_file_present w c0).
  - rewrite create_env_file_absent by (intros c1; congruence).
    unfold seq, bind, cp, echo, cp_files.
    destruct (bool_decide ("cp" ∈ commands w)); [|done].
    destruct (fs w !! (cwd w ++ ["env_example.txt"])) as [[e|]|]; try done.
    rewrite E.
    assert (cwd w ++ [".env"; "env_example.txt"] ≠ p) as Hne.
    { intros <-. by rewrite last_two in Hp. }
    destruct (fs w !! (cwd w ++ [".env"; "env_example.txt"])) as [[d|]|];
      simpl; try done; by rewrite lookup_insert_ne.
  - rewrite create_env_file_absent by (intros c1; congruence).
    unfold seq, bind, cp, echo, cp_files.
    destruct (bool_decide ("cp" ∈ commands w)); [|done].
    destruct (fs w !! (cwd w ++ ["env_example.txt"])) as [[e|]|]; try done.
    rewrite E. simpl. rewrite lookup_insert_ne; [done|].
    intros <-. congruence.
Qed.

(** ** The properties of the script *)

(** C10. When [command -v] does not find [python3], or finds it and does not
    find [node], the script ends through [exit 1] after two lines of output
    (the banner and the complaint): the file tree, the working directory and
    the commands are as before, and no program has been started. *)
Theorem setup_requires_python_and_node w :
  "python3" ∉ commands w ∨ ("python3" ∈ commands w ∧ "node" ∉ commands w) →
  ∃ w', setup_sh w = Exited 1 w'
        ∧ fs w' = fs w
        ∧ spawned w' = spawned w
        ∧ cwd w' = cwd w
        ∧ commands w' = commands w
        ∧ ∃ complaint,
            stdout w' =
              stdout w ++ ["🚀 Setting up Multi-Model Chat Interface..."; complaint].
Proof.
  set (w1 := with_stdout
               (stdout w ++ ["🚀 Setting up Multi-Model Chat Interface..."]) w).
  assert (echo "🚀 Setting up Multi-Model Chat Interface..." w = Continue 0 w1)
    as Hbanner by done.
  intros [Hpy | [Hpy Hnode]].
  - eexists. split.
    + unfold setup_sh. rewrite (seq_continue _ _ _ _ _ Hbanner).
      apply seq_exited. by apply check_python_missing.
    + simpl. repeat split; try done.
      eexists. by rewrite <- (assoc_L (++)).
  - eexists. split.
    + unfold setup_sh. rewrite (seq_continue _ _ _ _ _ Hbanner).
      rewrite (seq_continue _ _ _ _ _ (check_python_found w1 Hpy)).
      apply seq_exited. by apply check_node_missing.
    + simpl. repeat split; try done.
      eexists. by rewrite <- (assoc_L (++)).
Qed.

(** X2. Lines 25-35 start one program, [-m venv venv] of the newest
    interpreter found among [python3.12], [python3.11] and [python3], in the
    working directory ([python3] being the choice when neither of the others
    is found, and then it has to be found itself). *)
Theorem create_venv_prefers_newest w :
  venv_python w ∈ commands w →
  spawned (world_of (create_venv w)) =
    spawned w ++ [[venv_python w; "-m"; "venv"; "venv"]]
  ∧ fs (world_of (create_venv w)) =
      (extern [venv_python w; "-m"; "venv"; "venv"] (cwd w) (fs w)).1.
Proof.
  unfold venv_python, create_venv, if_, seq, bind, command_v, echo, run. simpl.
  destruct (bool_decide ("python3.12" ∈ commands w)) eqn:E12; simpl.
  { intros _. rewrite E12. by destruct (extern _ (cwd w) (fs w)). }
  destruct (bool_decide ("python3.11" ∈ commands w)) eqn:E11; simpl.
  { intros _. rewrite E11. by destruct (extern _ (cwd w) (fs w)). }
  intros Hin. rewrite bool_decide_eq_true_2 by done.
  by destruct (extern _ (cwd w) (fs w)).
Qed.

(** X3. Lines 21-53 end in the directory they started in when it has a
    [backend] directory.  When it has none, [cd backend] fails, the steps in
    between run where the script was started, and [cd ..] leaves for the
    parent. *)
Theorem setup_backend_directory w :
  ∃ st w', setup_backend w = Continue st w'
           ∧ cwd w' = match fs w !! (cwd w ++ ["backend"]) with
                      | Some Dir => cwd w
                      | _ => removelast (cwd w)
                      end.
Proof.
  assert (EndsInParent
            (create_venv ;>
             source ["venv"; "bin"; "activate"] ;>
             run ["pip"; "install"; "--upgrade"; "pip"] ;>
             run ["pip"; "install"; "-r"; "requirements.txt"] ;>
             create_env_file ;>
             cd "..")) as Hrest.
  { unfold create_venv, create_env_file.
    repeat (apply EndsInParent_seq; [auto 20 with noexit | auto 20 with cwd |]).
    apply EndsInParent_cd_up. }
  unfold setup_backend.
  set (w1 := with_stdout (stdout w ++ ["📦 Setting up Python backend..."]) w).
  rewrite (seq_continue _ _ w 0 w1) by done.
  assert (cd "backend" w1 =
            match fs w !! (cwd w ++ ["backend"]) with
            | Some Dir => Continue 0 (with_cwd (cwd w ++ ["backend"]) w1)
            | _ => Continue 1 w1
            end) as Hcd by reflexivity.
  destruct (fs w !! (cwd w ++ ["backend"])) as [[c|]|];
    rewrite (seq_continue _ _ _ _ _ Hcd);
    match goal with
    | |- context [seq _ _ ?w0] => destruct (Hrest w0) as (st & w' & Hrun & Hcwd)
    end;
    exists st, w'; (split; [done|]); rewrite Hcwd; simpl;
    by rewrite ?removelast_last.
Qed.

(** ** The programs a run starts *)

Lemma Starts_nothing {A} (c : Sh A) :
  (∀ w, spawned (world_of (c w)) = spawned w) → Starts (λ _, []) c.
Proof. intros H w. exists []. split; [done|]. by rewrite H, app_nil_r. Qed.

Lemma Starts_bind {A B} f1 f2 (c : Sh A) (k : A → Sh B) :
  Starts f1 c → (∀ a, Starts f2 (k a)) →
  (∀ w a w', c w = Continue a w' → f2 w' = f2 w) →
  Starts (λ w, f1 w ++ f2 w) (bind c k).
Proof.
  intros Hc Hk Hf w. destruct (Hc w) as (l1 & Hl1 & E1). unfold bind.
  destruct (c w) as [a w'|code w'] eqn:E; simpl in *.
  - destruct (Hk a w') as (l2 & Hl2 & E2). exists (l1 ++ l2). split.
    + apply sublist_app; [done|]. by rewrite <- (Hf w a w').
    + by rewrite E2, E1, (assoc_L (++)).
  - exists l1. split; [by apply sublist_inserts_r | done].
Qed.

(** Sequencing after a command that leaves the commands alone. *)
Lemma Starts_seq_same {A B} f1 f2 (c1 : Sh A) (c2 : Sh B) :
  Starts f1 c1 → Respects same_commands c1 → CommandsOnly f2 → Starts f2 c2 →
  Starts (λ w, f1 w ++ f2 w) (c1 ;> c2).
Proof.
  intros H1 Hsame Hf H2. apply Starts_bind; [done | by intros _ |].
  intros w a w' E. apply Hf. specialize (Hsame w). by rewrite E in Hsame.
Qed.

(** Sequencing before commands whose programs are fixed. *)
Lemma Starts_seq_const {A B} f1 l2 (c1 : Sh A) (c2 : Sh B) :
  Starts f1 c1 → Starts (λ _, l2) c2 → Starts (λ w, f1 w ++ l2) (c1 ;> c2).
Proof. intros H1 H2. by apply (Starts_bind f1 (λ _, l2)). Qed.

Lemma Starts_echo line : Starts (λ _, []) (echo line).
Proof. by apply Starts_nothing. Qed.

Lemma Starts_cd dir : Starts (λ _, []) (cd dir).
Proof.
  apply Starts_nothing. intros w. unfold cd.
  destruct (String.eqb dir ".."); [done|].
  by destruct (fs w !! (cwd w ++ [dir])) as [[c|]|].
Qed.

Lemma Starts_source file : Starts (λ _, []) (source file).
Proof.
  apply Starts_nothing. intros w. unfold source.
  by destruct (fs w !! (cwd w ++ file)) as [[c|]|].
Qed.

Lemma Starts_check_python : Starts (λ _, []) check_python.
Proof.
  apply Starts_nothing. intros w.
  unfold check_python, when_, if_, not_, bind, command_v, ret.
  by destruct (bool_decide ("python3" ∈ commands w)).
Qed.

Lemma Starts_check_node : Starts (λ _, []) check_node.
Proof.
  apply Starts_nothing. intros w.
  unfold check_node, when_, if_, not_, bind, command_v, ret.
  by destruct (bool_decide ("node" ∈ commands w)).
Qed.

Lemma Starts_next_steps : Starts (λ _, []) next_steps.
Proof. by apply Starts_nothing. Qed.

Lemma Starts_run argv : Starts (λ _, [argv]) (run argv).
Proof.
  intros w. unfold run. destruct argv as [|prog args].
  { exists []. split; [apply sublist_nil_l | by rewrite app_nil_r]. }
  destruct (bool_decide (prog ∈ commands w)).
  - destruct (extern (prog :: args) (cwd w) (fs w)) as [m st]. by eexists.
  - exists []. split; [apply sublist_nil_l | by rewrite app_nil_r].
Qed.

Lemma Starts_create_venv : Starts (λ w, [venv_line w]) create_venv.
Proof.
  intros w.
  unfold venv_line, venv_python, create_venv, if_, seq, bind, command_v, echo, run.
  simpl.
  destruct (bool_decide ("python3.12" ∈ commands w)) eqn:E12; simpl.
  { rewrite E12. destruct (extern _ (cwd w) (fs w)). by eexists. }
  destruct (bool_decide ("python3.11" ∈ commands w)) eqn:E11; simpl.
  { rewrite E11. destruct (extern _ (cwd w) (fs w)). by eexists. }
  destruct (bool_decide ("python3" ∈ commands w)).
  - destruct (extern _ (cwd w) (fs w)). by eexists.
  - exists []. split; [apply sublist_nil_l | by rewrite app_nil_r].
Qed.

Lemma Starts_create_env_file : Starts (λ _, [cp_line]) create_env_file.
Proof.
  intros w. destruct (fs w !! (cwd w ++ [".env"])) as [[c0|]|] eqn:E.
  1: { rewrite (create_env_file_present w c0 E).
       exists []. split; [apply sublist_nil_l | by rewrite app_nil_r]. }
  all: rewrite create_env_file_absent by (intros c1; congruence);
    unfold seq, bind, cp, echo;
    destruct (bool_decide ("cp" ∈ commands w));
    [ destruct (cp_files "env_example.txt" ".env" (cwd w) (fs w)); by eexists
    | exists []; split; [apply sublist_nil_l | by rewrite app_nil_r] ].
Qed.

#[local] Instance same_commands_preorder : PreOrder same_commands.
Proof.
  split; [done|]. intros w1 w2 w3 H12 H23. unfold same_commands in *. congruence.
Qed.

Lemma same_commands_echo line : Respects same_commands (echo line).
Proof. by intros w. Qed.

Lemma same_commands_cd dir : Respects same_commands (cd dir).
Proof.
  intros w. unfold cd. destruct (String.eqb dir ".."); [done|].
  by destruct (fs w !! (cwd w ++ [dir])) as [[c|]|].
Qed.

Create HintDb commands.
#[local] Hint Resolve same_commands_preorder Respects_ret Respects_seq
  Respects_not Respects_if Respects_when Respects_exit Respects_command_v
  same_commands_echo same_commands_cd : commands.

(** A list built from [venv_line] looks at the commands only. *)
Ltac commands_only :=
  let E := fresh "E" in
  intros ? ? E; unfold venv_line, venv_python; by rewrite E.

Lemma Starts_setup_backend :
  Starts (λ w, [venv_line w; pip_upgrade_line; pip_requirements_line; cp_line])
    setup_backend.
Proof.
  unfold setup_backend.
  apply (Starts_seq_same (λ _, [])
           (λ w, [venv_line w; pip_upgrade_line; pip_requirements_line; cp_line]));
    [apply Starts_echo | auto with commands | commands_only |].
  apply (Starts_seq_same (λ _, [])
           (λ w, [venv_line w; pip_upgrade_line; pip_requirements_line; cp_line]));
    [apply Starts_cd | auto with commands | commands_only |].
  apply (Starts_seq_const (λ w, [venv_line w])
           [pip_upgrade_line; pip_requirements_line; cp_line]);
    [apply Starts_create_venv|].
  apply (Starts_seq_const (λ _, [])
           [pip_upgrade_line; pip_requirements_line; cp_line]);
    [apply Starts_source|].
  apply (Starts_seq_const (λ _, [pip_upgrade_line])
           [pip_requirements_line; cp_line]);
    [apply Starts_run|].
  apply (Starts_seq_const (λ _, [pip_requirements_line]) [cp_line]);
    [apply Starts_run|].
  apply (Starts_seq_const (λ _, [cp_line]) []);
    [apply Starts_create_env_file | apply Starts_cd].
Qed.

Lemma Starts_setup_frontend : Starts (λ _, [npm_line]) setup_frontend.
Proof.
  unfold setup_frontend.
  apply (Starts_seq_const (λ _, []) [npm_line]);
    [apply Starts_echo | apply Starts_run].
Qed.

(** X7. A run starts no program but these, in this order and each at most
    once: the venv creation by the interpreter lines 25-35 choose, the two
    [pip install]s, the copy of the template, and [npm install]. *)
Theorem setup_starts_only_its_programs w :
  ∃ l, l `sublist_of` [venv_line w; pip_upgrade_line; pip_requirements_line;
                       cp_line; npm_line]
       ∧ spawned (world_of (setup_sh w)) = spawned w ++ l.
Proof.
  revert w.
  change (Starts (λ w, [venv_line w; pip_upgrade_line; pip_requirements_line;
                        cp_line; npm_line]) setup_sh).
  unfold setup_sh.
  apply (Starts_seq_same (λ _, [])
           (λ w, [venv_line w; pip_upgrade_line; pip_requirements_line;
                  cp_line; npm_line]));
    [apply Starts_echo | auto with commands | commands_only |].
  apply (Starts_seq_same (λ _, [])
           (λ w, [venv_line w; pip_upgrade_line; pip_requirements_line;
                  cp_line; npm_line]));
    [apply Starts_check_python | unfold check_python; auto 10 with commands
    | commands_only |].
  apply (Starts_seq_same (λ _, [])
           (λ w, [venv_line w; pip_upgrade_line; pip_requirements_line;
                  cp_line; npm_line]));
    [apply Starts_check_node | unfold check_node; auto 10 with commands
    | commands_only |].
  apply (Starts_seq_same (λ _, [])
           (λ w, [venv_line w; pip_upgrade_line; pip_requirements_line;
                  cp_line; npm_line]));
    [apply Starts_echo | auto with commands | commands_only |].
  apply (Starts_seq_const
           (λ w, [venv_line w; pip_upgrade_line; pip_requirements_line; cp_line])
           [npm_line]);
    [apply Starts_setup_backend|].
  apply (Starts_seq_const (λ _, [npm_line]) []);
    [apply Starts_setup_frontend | apply Starts_next_steps].
Qed.

(** ** Lines 37-51 in detail *)

Lemma seq_assoc {A B C} (c1 : Sh A) (c2 : Sh B) (c3 : Sh C) w :
  ((c1 ;> c2) ;> c3) w = (c1 ;> c2 ;> c3) w.
Proof. unfold seq, bind. by destruct (c1 w). Qed.

(** [install_dependencies] is the part of [setup_backend] it is named
    after. *)
Lemma setup_backend_blocks w :
  setup_backend w =
    (echo "📦 Setting up Python backend..." ;>
     cd "backend" ;>
     create_venv ;>
     install_dependencies ;>
     create_env_file ;>
     cd "..") w.
Proof.
  unfold setup_backend, install_dependencies, pip_upgrade_line,
    pip_requirements_line, seq, bind.
  destruct (echo _ w) as [a1 w1|]; [|done].
  destruct (cd "backend" w1) as [a2 w2|]; [|done].
  destruct (create_venv w2) as [a3 w3|]; [|done].
  destruct (source _ w3) as [a4 w4|]; [|done].
  by destruct (run _ w4) as [a5 w5|].
Qed.

(** X9. When [venv/bin/activate] is not there to be sourced, the shell
    finds the commands it found before, and both [pip install]s are started
    all the same, with the [pip] found outside any virtual environment. *)
Theorem pip_runs_without_venv w :
  (∀ s, fs w !! (cwd w ++ ["venv"; "bin"; "activate"]) ≠ Some (File s)) →
  "pip" ∈ commands w →
  ∃ st w', install_dependencies w = Continue st w'
           ∧ commands w' = commands w
           ∧ cwd w' = cwd w
           ∧ spawned w' = spawned w ++ [pip_upgrade_line; pip_requirements_line].
Proof.
  intros Hact Hpip.
  assert (source ["venv"; "bin"; "activate"] w = Continue 1 w) as Hsrc.
  { unfold source.
    destruct (fs w !! (cwd w ++ ["venv"; "bin"; "activate"])) as [[s|]|] eqn:E;
      [by destruct (Hact s) | done..]. }
  unfold install_dependencies. rewrite (seq_continue _ _ _ _ _ Hsrc).
  unfold seq, bind, run, pip_upgrade_line, pip_requirements_line.
  rewrite bool_decide_eq_true_2 by done.
  destruct (extern _ (cwd w) (fs w)) as [m1 st1]. simpl.
  rewrite bool_decide_eq_true_2 by done.
  destruct (extern _ (cwd w) m1) as [m2 st2]. simpl.
  eexists _, _. split; [done|]. simpl. by rewrite <- (assoc_L (++)).
Qed.

(** X4. With [cp] at hand, a template and nothing called [.env], lines
    45-51 create [.env] with the template's content, change nothing else in
    the file tree, and say so. *)
Theorem create_env_file_copies_template w t :
  "cp" ∈ commands w →
  fs w !! (cwd w ++ ["env_example.txt"]) = Some (File t) →
  fs w !! (cwd w ++ [".env"]) = None →
  ∃ w', create_env_file w = Continue 0 w'
        ∧ fs w' = <[cwd w ++ [".env"] := File t]> (fs w)
        ∧ fs w' !! (cwd w ++ ["env_example.txt"]) = Some (File t)
        ∧ spawned w' = spawned w ++ [cp_line]
        ∧ stdout w' =
            stdout w ++ ["📝 Created .env file. Please edit it with your API keys."].
Proof.
  intros Hcp Ht Henv.
  rewrite create_env_file_absent by (intros c; congruence).
  unfold seq, bind, cp, echo, cp_files.
  rewrite bool_decide_eq_true_2 by done. rewrite Ht, Henv. simpl.
  eexists. split; [done|]. simpl. repeat split; try done.
  rewrite lookup_insert_ne; [done|]. by intros ?%app_inv_head.
Qed.

(** X5. When nothing can be copied, because [cp] is not found or the
    template is not a regular file, lines 45-51 leave the file tree as it
    is, without a [.env], and still print that the file was created. *)
Theorem create_env_file_claims_success w :
  (∀ c, fs w !! (cwd w ++ [".env"]) ≠ Some (File c)) →
  "cp" ∉ commands w
  ∨ (∀ t, fs w !! (cwd w ++ ["env_example.txt"]) ≠ Some (File t)) →
  ∃ w', create_env_file w = Continue 0 w'
        ∧ fs w' = fs w
        ∧ stdout w' =
            stdout w ++ ["📝 Created .env file. Please edit it with your API keys."].
Proof.
  intros Henv Hno. rewrite create_env_file_absent by done.
  unfold seq, bind, cp, echo, cp_files.
  destruct Hno as [Hcp | Ht].
  - rewrite bool_decide_eq_false_2 by done. by eexists.
  - destruct (bool_decide ("cp" ∈ commands w)); [|by eexists].
    destruct (fs w !! (cwd w ++ ["env_example.txt"])) as [[t|]|] eqn:E;
      [by destruct (Ht t) | by eexists..].
Qed.

Lemma create_env_file_fs w :
  ∃ st w', create_env_file w = Continue st w'
           ∧ fs w' = env_step_fs w
           ∧ cwd w' = cwd w
           ∧ commands w' = commands w.
Proof.
  unfold env_step_fs.
  destruct (fs w !! (cwd w ++ [".env"])) as [[c0|]|] eqn:E.
  1: { rewrite (create_env_file_present w c0 E). by eexists _, _. }
  all: rewrite create_env_file_absent by (intros c1; congruence);
    unfold seq, bind, cp, echo;
    destruct (bool_decide ("cp" ∈ commands w)); [|by eexists _, _];
    destruct (cp_files "env_example.txt" ".env" (cwd w) (fs w));
    by eexists _, _.
Qed.

(** Where lines 45-51 have been, they find nothing left to do. *)
Lemma env_step_fs_fixed w w' :
  fs w' = env_step_fs w → cwd w' = cwd w → commands w' = commands w →
  env_step_fs w' = fs w'.
Proof.
  intros Hfs Hcwd Hcmd. unfold env_step_fs at 1. rewrite Hcwd, Hcmd, Hfs.
  unfold env_step_fs, cp_files.
  assert (cwd w ++ [".env"; "env_example.txt"] ≠ cwd w ++ [".env"]) as Hne1
    by (by intros ?%app_inv_head).
  assert (cwd w ++ [".env"; "env_example.txt"] ≠ cwd w ++ ["env_example.txt"])
    as Hne2 by (by intros ?%app_inv_head).
  assert (cwd w ++ [".env"] ≠ cwd w ++ ["env_example.txt"]) as Hne3
    by (by intros ?%app_inv_head).
  destruct (fs w !! (cwd w ++ [".env"])) as [[c0|]|] eqn:Eenv.
  - by rewrite Eenv.
  - destruct (bool_decide ("cp" ∈ commands w)); [|by rewrite Eenv].
    destruct (fs w !! (cwd w ++ ["env_example.txt"])) as [[t|]|] eqn:Et;
      simpl; [|by rewrite Eenv, ?Et..].
    destruct (fs w !! (cwd w ++ [".env"; "env_example.txt"])) as [[d|]|] eqn:Ein;
      simpl.
    + rewrite lookup_insert_ne, Eenv, lookup_insert_ne, Et, lookup_insert_eq
        by done.
      simpl. by rewrite insert_insert_eq.
    + by rewrite Eenv, Et, Ein.
    + rewrite lookup_insert_ne, Eenv, lookup_insert_ne, Et, lookup_insert_eq
        by done.
      simpl. by rewrite insert_insert_eq.
  - destruct (bool_decide ("cp" ∈ commands w)); [|by rewrite Eenv].
    destruct (fs w !! (cwd w ++ ["env_example.txt"])) as [[t|]|] eqn:Et;
      simpl; [|by rewrite Eenv, ?Et..].
    by rewrite lookup_insert_eq.
Qed.

(** X6. Lines 45-51 are idempotent on the file tree: run a second time
    they leave every file as the first run left it, whether the first run
    copied the template, found a [.env], or failed. *)
Theorem create_env_file_idempotent w :
  fs (world_of ((create_env_file ;> create_env_file) w)) =
    fs (world_of (create_env_file w)).
Proof.
  destruct (create_env_file_fs w) as (st & w1 & E1 & Hfs & Hcwd & Hcmd).
  rewrite (seq_continue _ _ _ _ _ E1), E1. simpl.
  destruct (create_env_file_fs w1) as (st' & w2 & E2 & Hfs2 & _).
  rewrite E2. simpl. rewrite Hfs2. by apply (env_step_fs_fixed w).
Qed.

(** ** What a run prints *)

Lemma Says_seq_same {A B} f1 f2 (f : World → list string → Prop)
    (c1 : Sh A) (c2 : Sh B) :
  Says f1 c1 → Respects same_commands c1 → Says f2 c2 →
  (∀ w w' l1 l2, commands w' = commands w →
                 f1 w l1 → f2 w' l2 → f w (l1 ++ l2)) →
  Says f (c1 ;> c2).
Proof.
  intros H1 Hsame H2 Hf w.
  destruct (H1 w) as (a & w1 & l1 & E1 & F1 & S1).
  destruct (H2 w1) as (b & w2 & l2 & E2 & F2 & S2).
  exists b, w2, (l1 ++ l2). split; [by rewrite (seq_continue _ _ _ _ _ E1)|].
  split; [|by rewrite S2, S1, (assoc_L (++))].
  apply (Hf w w1); [|done..]. specialize (Hsame w). by rewrite E1 in Hsame.
Qed.

Lemma Says_seq {A B} f1 f2 (f : World → list string → Prop)
    (c1 : Sh A) (c2 : Sh B) :
  Says f1 c1 → Says f2 c2 →
  (∀ w w' l1 l2, f1 w l1 → f2 w' l2 → f w (l1 ++ l2)) →
  Says f (c1 ;> c2).
Proof.
  intros H1 H2 Hf w.
  destruct (H1 w) as (a & w1 & l1 & E1 & F1 & S1).
  destruct (H2 w1) as (b & w2 & l2 & E2 & F2 & S2).
  exists b, w2, (l1 ++ l2). split; [by rewrite (seq_continue _ _ _ _ _ E1)|].
  split; [by apply (Hf w w1) | by rewrite S2, S1, (assoc_L (++))].
Qed.

Lemma Says_echo line : Says (λ _ l, l = [line]) (echo line).
Proof. intros w. by eexists _, _, _. Qed.

Lemma Says_cd dir : Says (λ _ l, l = []) (cd dir).
Proof.
  intros w. unfold cd. destruct (String.eqb dir "..").
  { eexists _, _, []. by rewrite app_nil_r. }
  destruct (fs w !! (cwd w ++ [dir])) as [[c|]|];
    eexists _, _, []; by rewrite app_nil_r.
Qed.

Lemma Says_source file : Says (λ _ l, l = []) (source file).
Proof.
  intros w. unfold source.
  destruct (fs w !! (cwd w ++ file)) as [[c|]|];
    eexists _, _, []; by rewrite app_nil_r.
Qed.

(** What a program writes goes to the terminal, not through the script. *)
Lemma Says_run argv : Says (λ _ l, l = []) (run argv).
Proof.
  intros w. unfold run. destruct argv as [|prog args].
  { eexists _, _, []. by rewrite app_nil_r. }
  destruct (bool_decide (prog ∈ commands w)).
  - destruct (extern (prog :: args) (cwd w) (fs w)) as [m st].
    eexists _, _, []. by rewrite app_nil_r.
  - eexists _, _, []. by rewrite app_nil_r.
Qed.

Lemma Says_create_venv : Says (λ w l, l = [venv_message w]) create_venv.
Proof.
  intros w. unfold venv_message, create_venv, if_, seq, bind, command_v, echo.
  destruct (bool_decide ("python3.12" ∈ commands w)); [|
    destruct (bool_decide ("python3.11" ∈ commands w))];
    match goal with
    | |- context [run ?argv ?w0] =>
        destruct (Says_run argv w0) as (a & w' & l & E & -> & S)
    end;
    eexists a, w', _; rewrite E, S;
    (split; [done|]); (split; [reflexivity|]); simpl; by rewrite app_nil_r.
Qed.

Lemma Says_create_env_file :
  Says (λ _ l, ∃ line, line ∈ env_messages ∧ l = [line]) create_env_file.
Proof.
  intros w. destruct (fs w !! (cwd w ++ [".env"])) as [[c0|]|] eqn:E.
  1: { rewrite (create_env_file_present w c0 E). eexists _, _, [_].
       split; [done|]. split; [|done]. eexists. split; [|done].
       unfold env_messages. set_solver. }
  all: rewrite create_env_file_absent by (intros c1; congruence);
    unfold seq, bind, cp, echo;
    destruct (bool_decide ("cp" ∈ commands w));
    [destruct (cp_files "env_example.txt" ".env" (cwd w) (fs w))|];
    eexists _, _, [_]; (split; [done|]); (split; [|done]);
    eexists; (split; [|done]); unfold env_messages; set_solver.
Qed.

Lemma Says_setup_backend :
  Says (λ w l, ∃ line, line ∈ env_messages
                       ∧ l = ["📦 Setting up Python backend...";
                              venv_message w; line])
    setup_backend.
Proof.
  set (Penv := λ (_ : World) (l : list string),
                 ∃ line, line ∈ env_messages ∧ l = [line]).
  set (Pvenv := λ (w : World) (l : list string),
                  ∃ line, line ∈ env_messages ∧ l = [venv_message w; line]).
  assert (Says Penv (create_env_file ;> cd "..")) as H7.
  { apply (Says_seq Penv (λ _ l, l = []));
      [apply Says_create_env_file | apply Says_cd |].
    intros w w' l1 l2 (line & Hline & ->) ->. by exists line. }
  assert (Says Penv (run ["pip"; "install"; "-r"; "requirements.txt"] ;>
                     create_env_file ;> cd "..")) as H6.
  { apply (Says_seq (λ _ l, l = []) Penv); [apply Says_run | done |].
    by intros w w' l1 l2 -> H. }
  assert (Says Penv (run ["pip"; "install"; "--upgrade"; "pip"] ;>
                     run ["pip"; "install"; "-r"; "requirements.txt"] ;>
                     create_env_file ;> cd "..")) as H5.
  { apply (Says_seq (λ _ l, l = []) Penv); [apply Says_run | done |].
    by intros w w' l1 l2 -> H. }
  assert (Says Penv (source ["venv"; "bin"; "activate"] ;>
                     run ["pip"; "install"; "--upgrade"; "pip"] ;>
                     run ["pip"; "install"; "-r"; "requirements.txt"] ;>
                     create_env_file ;> cd "..")) as H4.
  { apply (Says_seq (λ _ l, l = []) Penv); [apply Says_source | done |].
    by intros w w' l1 l2 -> H. }
  assert (Says Pvenv (create_venv ;>
                      source ["venv"; "bin"; "activate"] ;>
                      run ["pip"; "install"; "--upgrade"; "pip"] ;>
                      run ["pip"; "install"; "-r"; "requirements.txt"] ;>
                      create_env_file ;> cd "..")) as H3.
  { apply (Says_seq (λ w l, l = [venv_message w]) Penv);
      [apply Says_create_venv | done |].
    intros w w' l1 l2 -> (line & Hline & ->). by exists line. }
  assert (Says Pvenv (cd "backend" ;>
                      create_venv ;>
                      source ["venv"; "bin"; "activate"] ;>
                      run ["pip"; "install"; "--upgrade"; "pip"] ;>
                      run ["pip"; "install"; "-r"; "requirements.txt"] ;>
                      create_env_file ;> cd "..")) as H2.
  { apply (Says_seq_same (λ _ l, l = []) Pvenv);
      [apply Says_cd | auto with commands | done |].
    intros w w' l1 l2 Hcmd -> (line & Hline & ->). exists line.
    split; [done|]. simpl. unfold venv_message. by rewrite Hcmd. }
  unfold setup_backend.
  apply (Says_seq_same (λ _ l, l = ["📦 Setting up Python backend..."]) Pvenv);
    [apply Says_echo | auto with commands | done |].
  intros w w' l1 l2 Hcmd -> (line & Hline & ->). exists line.
  split; [done|]. simpl. unfold venv_message. by rewrite Hcmd.
Qed.

Lemma Says_setup_frontend :
  Says (λ _ l, l = ["📦 Setting up React frontend..."]) setup_frontend.
Proof.
  unfold setup_frontend.
  apply (Says_seq (λ _ l, l = ["📦 Setting up React frontend..."])
           (λ _ l, l = []));
    [apply Says_echo | apply Says_run |].
  by intros w w' l1 l2 -> ->.
Qed.

(** With both interpreters found, the whole of a run: it reaches the last
    line, and this is what it has printed. *)
Lemma setup_sh_found w :
  "python3" ∈ commands w → "node" ∈ commands w →
  ∃ w' line,
    setup_sh w = Continue 0 w'
    ∧ line ∈ env_messages
    ∧ stdout w' =
        stdout w ++
          ["🚀 Setting up Multi-Model Chat Interface...";
           "✅ Python and Node.js found";
           "📦 Setting up Python backend...";
           venv_message w;
           line;
           "📦 Setting up React frontend..."] ++ closing_lines.
Proof.
  intros Hpy Hnode. unfold setup_sh.
  set (w1 := with_stdout
               (stdout w ++ ["🚀 Setting up Multi-Model Chat Interface..."]) w).
  rewrite (seq_continue _ _ w 0 w1) by done.
  rewrite (seq_continue _ _ _ _ _ (check_python_found w1 Hpy)).
  rewrite (seq_continue _ _ _ _ _ (check_node_found w1 Hnode)).
  set (w2 := with_stdout (stdout w1 ++ ["✅ Python and Node.js found"]) w1).
  rewrite (seq_continue _ _ w1 0 w2) by done.
  destruct (Says_setup_backend w2) as (a3 & w3 & l3 & E3 & (line & Hline & ->) & S3).
  rewrite (seq_continue _ _ _ _ _ E3).
  destruct (Says_setup_frontend w3) as (a4 & w4 & l4 & E4 & -> & S4).
  rewrite (seq_continue _ _ _ _ _ E4).
  eexists _, line. split; [reflexivity|]. split; [done|].
  simpl. rewrite S4, S3. simpl.
  change (venv_message w2) with (venv_message w).
  by rewrite <- !(assoc_L (++)).
Qed.


Lemma not_complaint_venv_message w :
  venv_message w ≠ python_complaint ∧ venv_message w ≠ node_complaint.
Proof. unfold venv_message. by repeat case_bool_decide. Qed.

(** X8. Of two missing interpreters only the first is reported, and none
    when none is missing: the run prints the banner and Python's complaint
    when [python3] is not found, whether or not [node] is; the banner and
    Node's complaint when [python3] is found and [node] is not; and neither
    complaint when both are found. *)
Theorem setup_reports_first_missing w :
  ("python3" ∉ commands w →
   stdout (world_of (setup_sh w)) =
     stdout w ++
       ["🚀 Setting up Multi-Model Chat Interface..."; python_complaint])
  ∧ ("python3" ∈ commands w → "node" ∉ commands w →
     stdout (world_of (setup_sh w)) =
       stdout w ++
         ["🚀 Setting up Multi-Model Chat Interface..."; node_complaint])
  ∧ ("python3" ∈ commands w → "node" ∈ commands w →
     ∃ printed,
       stdout (world_of (setup_sh w)) = stdout w ++ printed
       ∧ (python_complaint ∉ printed)
       ∧ (node_complaint ∉ printed)).
Proof.
  set (w1 := with_stdout
               (stdout w ++ ["🚀 Setting up Multi-Model Chat Interface..."]) w).
  assert (echo "🚀 Setting up Multi-Model Chat Interface..." w = Continue 0 w1)
    as Hbanner by done.
  split; [|split].
  - intros Hpy. unfold setup_sh. rewrite (seq_continue _ _ _ _ _ Hbanner).
    rewrite (seq_exited _ _ _ _ _ (check_python_missing w1 Hpy)).
    simpl. by rewrite <- (assoc_L (++)).
  - intros Hpy Hnode. unfold setup_sh. rewrite (seq_continue _ _ _ _ _ Hbanner).
    rewrite (seq_continue _ _ _ _ _ (check_python_found w1 Hpy)).
    rewrite (seq_exited _ _ _ _ _ (check_node_missing w1 Hnode)).
    simpl. by rewrite <- (assoc_L (++)).
  - intros Hpy Hnode.
    destruct (setup_sh_found w Hpy Hnode) as (w' & line & E & Hline & Hout).
    rewrite E. simpl. eexists. split; [exact Hout|].
    destruct (not_complaint_venv_message w) as [Hv1 Hv2].
    assert (line ≠ python_complaint ∧ line ≠ node_complaint) as [Hl1 Hl2].
    { unfold env_messages in Hline.
      apply elem_of_cons in Hline as [->|Hline]; [done|].
      apply elem_of_cons in Hline as [->|Hline]; [done|].
      by apply elem_of_nil in Hline. }
    unfold closing_lines.
    split; simpl; repeat (apply not_elem_of_cons; split; [done|]);
      apply not_elem_of_nil.
Qed.

Section TrustedInstallers.

(** The installers are trusted not to touch a file named [.env]. *)
Hypothesis extern_leaves_env :
  ∀ argv dir m p, last p = Some ".env" → (extern argv dir m).1 !! p = m !! p.

Lemma keeps_run argv : Respects keeps_env_files (run argv).
Proof.
  intros w p c Hp Hf. unfold run. destruct argv as [|prog args]; [done|].
  destruct (bool_decide (prog ∈ commands w)); [|done].
  specialize (extern_leaves_env (prog :: args) (cwd w) (fs w) p Hp).
  destruct (extern (prog :: args) (cwd w) (fs w)) as [m st]; simpl in *.
  by rewrite extern_leaves_env.
Qed.

Create HintDb keeps.
#[local] Hint Resolve keeps_env_files_preorder Respects_ret Respects_seq
  Respects_not Respects_if Respects_when Respects_exit Respects_command_v
  Respects_test_f keeps_echo keeps_cd keeps_source keeps_create_env_file
  keeps_run : keeps.

Lemma keeps_setup_sh : Respects keeps_env_files setup_sh.
Proof.
  unfold setup_sh, check_python, check_node, setup_backend, create_venv,
    setup_frontend, next_steps.
  auto 30 with keeps.
Qed.

(** C9. The setup script never overwrites an existing [.env]: over a whole
    run, every regular file named [.env] keeps its content (the installers
    being trusted to leave such files alone); the block of lines 45-51 only
    prints a warning when [.env] is a regular file of the working directory,
    changing no file and starting no program; and it runs
    [cp env_example.txt .env] exactly when no regular file has that name. *)
Theorem setup_never_overwrites_env :
  (∀ w p c, last p = Some ".env" → fs w !! p = Some (File c) →
            fs (world_of (setup_sh w)) !! p = Some (File c))
  ∧ (∀ w c, fs w !! (cwd w ++ [".env"]) = Some (File c) →
            create_env_file w =
              Continue 0 (with_stdout (stdout w ++ ["⚠️  .env file already exists"]) w))
  ∧ (∀ w, (∀ c, fs w !! (cwd w ++ [".env"]) ≠ Some (File c)) →
          create_env_file w =
            (cp "env_example.txt" ".env" ;>
             echo "📝 Created .env file. Please edit it with your API keys.") w).
Proof.
  split; [|split].
  - intros w p c Hp Hf. by apply keeps_setup_sh.
  - apply create_env_file_present.
  - apply create_env_file_absent.
Qed.

End TrustedInstallers.

End Script.

(** ** The script on the concrete machine *)

Lemma installers_leave_env argv dir m p :
  last p = Some ".env" → (installers argv dir m).1 !! p = m !! p.
Proof.
  intros Hp. unfold installers.
  repeat case_bool_decide; simpl; [| |done].
  - rewrite !lookup_insert_ne; [done | |];
      intros <-; by rewrite last_app in Hp.
  - rewrite lookup_insert_ne; [done|].
    intros <-. by rewrite last_app in Hp.
Qed.

(** A run on the checkout: the venv is made with [python3], [pip] is found
    once [activate] has been sourced, [cp] is not started, and the shell is
    back where it began. *)
Example setup_on_checkout :
  let o := setup_sh installers activated checkout in
  exit_code o = 0
  ∧ cwd (world_of o) = ["repo"]
  ∧ spawned (world_of o) =
      [["python3"; "-m"; "venv"; "venv"];
       ["pip"; "install"; "--upgrade"; "pip"];
       ["pip"; "install"; "-r"; "requirements.txt"];
       ["npm"; "install"; "--legacy-peer-deps"]].
Proof. vm_compute. done. Qed.

(** Without a [.env], the template is copied. *)
Example setup_on_fresh_checkout :
  let fresh_checkout :=
    mkWorld ["repo"] (delete ["repo"; "backend"; ".env"] (fs checkout))
      (commands checkout) [] [] in
  let o := setup_sh installers activated fresh_checkout in
  fs (world_of o) !! ["repo"; "backend"; ".env"] = Some (File "OPENAI_API_KEY=")
  ∧ ["cp"; "env_example.txt"; ".env"] ∈ spawned (world_of o).
Proof. vm_compute. split; [done|]. set_solver. Qed.

Lemma setup_never_overwrites_env_witness :
  fs (world_of (setup_sh installers activated checkout))
    !! ["repo"; "backend"; ".env"] = Some (File "OPENAI_API_KEY=sk-live").
Proof.
  apply (proj1 (setup_never_overwrites_env installers activated
                  installers_leave_env)).
  - reflexivity.
  - vm_compute. reflexivity.
Defined.

Lemma setup_requires_python_and_node_witness :
  ∃ w', setup_sh installers activated checkout_no_node = Exited 1 w'
        ∧ fs w' = fs checkout_no_node
        ∧ spawned w' = spawned checkout_no_node
        ∧ cwd w' = cwd checkout_no_node
        ∧ commands w' = commands checkout_no_node
        ∧ ∃ complaint,
            stdout w' =
              stdout checkout_no_node ++
                ["🚀 Setting up Multi-Model Chat Interface..."; complaint].
Proof.
  apply (setup_requires_python_and_node installers activated checkout_no_node).
  right. split.
  - apply (bool_decide_unpack _). vm_compute. exact I.
  - apply (bool_decide_unpack _). vm_compute. exact I.
Defined.


Lemma create_venv_prefers_newest_witness :
  spawned (world_of (create_venv installers checkout)) =
    spawned checkout ++ [[venv_python checkout; "-m"; "venv"; "venv"]]
  ∧ fs (world_of (create_venv installers checkout)) =
      (installers [venv_python checkout; "-m"; "venv"; "venv"]
         (cwd checkout) (fs checkout)).1.
Proof.
  apply (create_venv_prefers_newest installers checkout).
  apply (bool_decide_unpack _). vm_compute. exact I.
Defined.

Lemma create_env_file_copies_template_witness :
  ∃ w', create_env_file in_backend = Continue 0 w'
        ∧ fs w' = <[cwd in_backend ++ [".env"] := File "OPENAI_API_KEY="]>
                    (fs in_backend)
        ∧ fs w' !! (cwd in_backend ++ ["env_example.txt"]) =
            Some (File "OPENAI_API_KEY=")
        ∧ spawned w' = spawned in_backend ++ [cp_line]
        ∧ stdout w' =
            stdout in_backend ++
              ["📝 Created .env file. Please edit it with your API keys."].
Proof.
  apply (create_env_file_copies_template in_backend "OPENAI_API_KEY=").
  - apply (bool_decide_unpack _). vm_compute. exact I.
  - vm_compute. reflexivity.
  - vm_compute. reflexivity.
Defined.

Lemma create_env_file_claims_success_witness :
  ∃ w', create_env_file in_backend_no_template = Continue 0 w'
        ∧ fs w' = fs in_backend_no_template
        ∧ stdout w' =
            stdout in_backend_no_template ++
              ["📝 Created .env file. Please edit it with your API keys."].
Proof.
  apply (create_env_file_claims_success in_backend_no_template).
  - intros c. vm_compute. discriminate.
  - right. intros t. vm_compute. discriminate.
Defined.

Lemma pip_runs_without_venv_witness :
  ∃ st w', install_dependencies installers activated in_backend = Continue st w'
           ∧ commands w' = commands in_backend
           ∧ cwd w' = cwd in_backend
           ∧ spawned w' =
               spawned in_backend ++ [pip_upgrade_line; pip_requirements_line].
Proof.
  apply (pip_runs_without_venv installers activated in_backend).
  - intros s. vm_compute. discriminate.
  - apply (bool_decide_unpack _). vm_compute. exact I.
Defined.

End Setup.

(* ===================================================================== *)
(** * src/App.tsx                                                         *)
(* ===================================================================== *)

Module Frontend.

(** ** React elements *)

#[local] Set Warnings "-register-all".

(** The JavaScript values [App] passes as props: strings, numbers, and
    object literals with their fields in source order. *)
Inductive Value :=
| VStr (s : string)
| VNum (n : Z)
| VObj (fields : list (string * Value)).

(** What a function component returns: a host element ([<div>]) or an
    element of another component ([<Sidebar />]), not rendered yet, with its
    props and children. *)
Inductive Element :=
| Host (tag : string) (props : list (string * Value)) (children : list Element)
| Component (name : string) (props : list (string * Value)) (children : list Element).

Definition component_name (e : Element) : option string :=
  match e with
  | Host _ _ _ => None
  | Component name _ _ => Some name
  end.

Definition props (e : Element) : list (string * Value) :=
  match e with
  | Host _ ps _ => ps
  | Component _ ps _ => ps
  end.

Definition children (e : Element) : list Element :=
  match e with
  | Host _ _ cs => cs
  | Component _ _ cs => cs
  end.

(** The first binding of [key], as property access reads it. *)
Fixpoint assoc (key : string) (fields : list (string * Value)) : option Value :=
  match fields with
  | [] => None
  | (k, v) :: rest => if String.eqb key k then Some v else assoc key rest
  end.

(** [e.props.key] *)
Definition prop (key : string) (e : Element) : option Value :=
  assoc key (props e).

(** [v.key] *)
Definition field (key : string) (v : Value) : option Value :=
  match v with
  | VObj fields => assoc key fields
  | _ => None
  end.

Section App.

(** The client store is declared in [store/chatStore], which is not among
    the sources.  [App] reads one field of it, [sidebarOpen]; the store's
    other fields and actions are kept abstract. *)
Variable Rest : Type.

Record ChatStore := mkChatStore {
  sidebarOpen : bool;
  rest : Rest
}.

(** The hook, called without a selector, returns the whole store. *)
Definition useChatStore (store : ChatStore) : ChatStore := store.

(** Lines 28-49: the toast container and its options. *)
Definition toaster : Element :=
  Component "Toaster"
    [("position", VStr "top-right");
     ("toastOptions",
      VObj [("duration", VNum 4000);
            ("style", VObj [("background", VStr "#363636");
                            ("color", VStr "#fff")]);
            ("success", VObj [("iconTheme",
                               VObj [("primary", VStr "#10B981");
                                     ("secondary", VStr "#fff")])]);
            ("error", VObj [("iconTheme",
                             VObj [("primary", VStr "#EF4444");
                                   ("secondary", VStr "#fff")])])])]
    [].

(** Lines 8-52. *)
Definition App (store : ChatStore) : Element :=
  let sidebarOpen := sidebarOpen (useChatStore store) in
  Host "div" [("className", VStr "flex h-screen bg-gray-50")]
    [Component "Sidebar" [] [];
     Host "div" [("className", VStr "flex-1 flex flex-col min-w-0")]
       [Component "Header" [] [];
        Host "div" [("className", VStr "flex-1 overflow-hidden")]
          [Component "ChatArea" [] []]];
     toaster].

(** ** Properties of [App] *)

(** [App] returns the same element whatever the store holds. *)
Lemma App_constant (s1 s2 : ChatStore) : App s1 = App s2.
Proof. unfold App. reflexivity. Qed.

(** X10. For every state of the client store, the element [App] returns
    has a [Toaster] among the children of its root, and that container's
    [toastOptions.error] is the red icon theme.  Whether a toast is raised
    when a chat request fails is decided in [store/chatStore], of which
    nothing is said here. *)
Theorem App_mounts_toaster (store : ChatStore) :
  ∃ t, t ∈ children (App store)
       ∧ component_name t = Some "Toaster"
       ∧ (prop "toastOptions" t ≫= field "error") =
           Some (VObj [("iconTheme", VObj [("primary", VStr "#EF4444");
                                           ("secondary", VStr "#fff")])]).
Proof.
  exists toaster. split; [|split].
  - unfold App, children. set_solver.
  - reflexivity.
  - reflexivity.
Qed.

(** C8. Two runs of [App] on stores that differ at most in [sidebarOpen]
    return the same element: [App] reads the flag and does not use it. *)
Theorem App_ignores_sidebarOpen (open1 open2 : bool) (r : Rest) :
  App (mkChatStore open1 r) = App (mkChatStore open2 r).
Proof. apply App_constant. Qed.

End App.

End Frontend.

(* ===================================================================== *)
(** * The Conversation Store                                              *)
(* ===================================================================== *)

Module Backend.

(** The backend ([backend/app]) is not among the sources.  What follows is
    its Conversation Store as the design document describes it: the data
    model of section 3, the operations of section 4.2, and the endpoint list
    of section 6. *)

(** ** Data model *)

(** Modelled from the spec: the role of a message, "user/assistant/system"
    (section 3); the backend's models are missing. *)
Inductive Role := User | Assistant | System.

(** Modelled from the spec: "Message: role, text content, timestamp". *)
Record Message := mkMessage {
  role : Role;
  content : string;
  timestamp : Z
}.

(** Modelled from the spec: the provider enum; the glossary names OpenAI,
    Google and Anthropic. *)
Inductive Provider := OpenAI | Google | Anthropic.

(** Modelled from the spec: "ModelSettings: provider enum, model identifier,
    temperature, max tokens, optional system prompt string". *)
Record ModelSettings := mkModelSettings {
  provider : Provider;
  model : string;
  temperature : QArith_base.Q;
  max_tokens : Z;
  system_prompt : option string
}.

(** Modelled from the spec: "Conversation: id, title, ordered sequence of
    Message, created/updated timestamps, associated model settings". *)
Record Conversation := mkConversation {
  id : nat;
  title : string;
  messages : list Message;
  created_at : Z;
  updated_at : Z;
  settings : ModelSettings
}.

Definition with_messages (ms : list Message) (now : Z) (c : Conversation) :
    Conversation :=
  mkConversation (id c) (title c) ms (created_at c) now (settings c).

Definition with_title (t : string) (now : Z) (c : Conversation) : Conversation :=
  mkConversation (id c) t (messages c) (created_at c) now (settings c).

(** ** Operations *)

(** The store is a finite map from conversation id to conversation ("mapping
    from conversation id to an ordered list of messages and metadata",
    section 2).  An operation on an id the store does not hold fails with
    [None], and the store stays as it is. *)

(** Modelled from the spec: create of the missing store module.  "Creating a
    conversation yields a unique id absent from prior state" (section 8):
    the id is one the store does not hold, and the conversation starts
    without messages. *)
Definition create_conversation (t : string) (st : ModelSettings) (now : Z)
    (s : gmap nat Conversation) : nat * gmap nat Conversation :=
  let i := fresh (dom s) in
  (i, <[i := mkConversation i t [] now now st]> s).

(** Modelled from the spec: read of the missing store module, "direct id
    lookup" (section 4.2). *)
Definition get_conversation (i : nat) (s : gmap nat Conversation) :
    option Conversation :=
  s !! i.

(** Modelled from the spec: the listing of [GET /api/chat/conversations]
    (section 6), every conversation the missing store holds; the spec fixes
    no order, and the listing comes in the map's. *)
Definition list_conversations (s : gmap nat Conversation) : list Conversation :=
  (map_to_list s).*2.

(** Modelled from the spec: "update (append message ...)" of the missing
    store module; the message goes to the end of the sequence. *)
Definition append_message (i : nat) (m : Message) (now : Z)
    (s : gmap nat Conversation) : option (gmap nat Conversation) :=
  c ← s !! i; Some (<[i := with_messages (messages c ++ [m]) now c]> s).

(** Modelled from the spec: "update (... rename)" of the missing store
    module, [PUT /api/chat/conversations/{id}/title]. *)
Definition rename_conversation (i : nat) (t : string) (now : Z)
    (s : gmap nat Conversation) : option (gmap nat Conversation) :=
  c ← s !! i; Some (<[i := with_title t now c]> s).

(** Modelled from the spec: "delete by id" of the missing store module. *)
Definition delete_conversation (i : nat) (s : gmap nat Conversation) :
    option (gmap nat Conversation) :=
  c ← s !! i; Some (delete i s).

(** Modelled from the spec: [DELETE /api/chat/conversations/{id}/messages]
    (section 6) of the missing chat API, which the README calls "Clear
    conversation": the conversation stays, without its messages. *)
Definition clear_messages (i : nat) (now : Z) (s : gmap nat Conversation) :
    option (gmap nat Conversation) :=
  c ← s !! i; Some (<[i := with_messages [] now c]> s).

(** ** Histories *)

(** A request that can change the store. *)
Inductive Op :=
| Create (t : string) (st : ModelSettings) (now : Z)
| Append (i : nat) (m : Message) (now : Z)
| Rename (i : nat) (t : string) (now : Z)
| Delete (i : nat)
| Clear (i : nat) (now : Z).

(** The store after a request; a request that fails changes nothing. *)
Definition apply (o : Op) (s : gmap nat Conversation) : gmap nat Conversation :=
  match o with
  | Create t st now => (create_conversation t st now s).2
  | Append i m now => default s (append_message i m now s)
  | Rename i t now => default s (rename_conversation i t now s)
  | Delete i => default s (delete_conversation i s)
  | Clear i now => default s (clear_messages i now s)
  end.

(** The store after a history of requests, oldest first, from the empty
    store the server starts with. *)
Definition run (ops : list Op) : gmap nat Conversation :=
  foldl (λ s o, apply o s) ∅ ops.

(** The stores the server can be in. *)
Inductive reachable : gmap nat Conversation → Prop :=
| reachable_empty : reachable ∅
| reachable_apply s o : reachable s → reachable (apply o s).

(** Every conversation is filed under its own id. *)
Definition filed_by_id (s : gmap nat Conversation) : Prop :=
  ∀ k c, s !! k = Some c → id c = k.

(** ** A concrete history *)

Definition gpt4 : ModelSettings :=
  mkModelSettings OpenAI "gpt-4" (QArith_base.Qmake 7 10) 1000 None.

Definition hello : Message := mkMessage User "hello" 10.

Definition reply : Message := mkMessage Assistant "hi there" 11.

(** Two conversations, the first with one message. *)
Definition two_conversations : list Op :=
  [Create "first" gpt4 1; Append 0 hello 10; Create "second" gpt4 2].

Definition first_conversation : Conversation :=
  mkConversation 0 "first" [hello] 1 10 gpt4.

(** ** Lookup after each operation *)

Lemma elem_of_list_conversations (s : gmap nat Conversation) c :
  c ∈ list_conversations s ↔ ∃ k, s !! k = Some c.
Proof.
  unfold list_conversations. rewrite list_elem_of_fmap. split.
  - intros [[k c'] [-> Hin]]. exists k. by apply elem_of_map_to_list.
  - intros [k Hk]. exists (k, c). split; [done|]. by apply elem_of_map_to_list.
Qed.

Lemma create_conversation_fresh t st now (s : gmap nat Conversation) :
  s !! (create_conversation t st now s).1 = None.
Proof. simpl. apply not_elem_of_dom, is_fresh. Qed.

Lemma unchanged_lookup o (s : gmap nat Conversation) k c' :
  s !! k = Some c' →
  (∃ c, s !! k = Some c ∧ id c' = id c
        ∧ (messages c `prefix_of` messages c'
           ∨ (∃ now, o = Clear k now) ∧ messages c' = []))
  ∨ (s !! k = None ∧ id c' = k ∧ messages c' = []).
Proof. intros Hk. left. exists c'. by repeat split; [..|left]. Qed.

Lemma apply_lookup o (s : gmap nat Conversation) k c' :
  apply o s !! k = Some c' →
  (∃ c, s !! k = Some c ∧ id c' = id c
        ∧ (messages c `prefix_of` messages c'
           ∨ (∃ now, o = Clear k now) ∧ messages c' = []))
  ∨ (s !! k = None ∧ id c' = k ∧ messages c' = []).
Proof.
  destruct o as [t st now|i m now|i t now|i|i now]; simpl.
  - destruct (decide (fresh (dom s) = k)) as [<-|Hne].
    + rewrite lookup_insert_eq. intros [= <-]. right.
      split; [apply not_elem_of_dom, is_fresh | done].
    + rewrite lookup_insert_ne by done. apply unchanged_lookup.
  - unfold append_message.
    destruct (s !! i) as [c|] eqn:E; simpl; [|apply unchanged_lookup].
    destruct (decide (i = k)) as [<-|Hne].
    + rewrite lookup_insert_eq. intros [= <-]. left. exists c.
      split; [done|]. split; [done|]. left. by apply prefix_app_r.
    + rewrite lookup_insert_ne by done. apply unchanged_lookup.
  - unfold rename_conversation.
    destruct (s !! i) as [c|] eqn:E; simpl; [|apply unchanged_lookup].
    destruct (decide (i = k)) as [<-|Hne].
    + rewrite lookup_insert_eq. intros [= <-]. left. exists c.
      by repeat split; [..|left].
    + rewrite lookup_insert_ne by done. apply unchanged_lookup.
  - unfold delete_conversation.
    destruct (s !! i) as [c|] eqn:E; simpl; [|apply unchanged_lookup].
    destruct (decide (i = k)) as [<-|Hne].
    + by rewrite lookup_delete_eq.
    + rewrite lookup_delete_ne by done. apply unchanged_lookup.
  - unfold clear_messages.
    destruct (s !! i) as [c|] eqn:E; simpl; [|apply unchanged_lookup].
    destruct (decide (i = k)) as [<-|Hne].
    + rewrite lookup_insert_eq. intros [= <-]. left. exists c.
      repeat split; [done..|]. right. eauto.
    + rewrite lookup_insert_ne by done. apply unchanged_lookup.
Qed.

(** ** Reachable stores *)

Lemma filed_by_id_empty : filed_by_id ∅.
Proof. intros k c. by rewrite lookup_empty. Qed.

Lemma filed_by_id_apply o s : filed_by_id s → filed_by_id (apply o s).
Proof.
  intros Hs k c' Hk.
  destruct (apply_lookup o s k c' Hk) as [(c & Hc & Hid & _) | (_ & Hid & _)].
  - rewrite Hid. by apply Hs.
  - done.
Qed.

Lemma reachable_filed_by_id s : reachable s → filed_by_id s.
Proof.
  induction 1 as [|s o _ IH]; [apply filed_by_id_empty|].
  by apply filed_by_id_apply.
Qed.

Lemma reachable_foldl ops s :
  reachable s → reachable (foldl (λ s o, apply o s) s ops).
Proof.
  revert s. induction ops as [|o ops IH]; intros s Hs; simpl; [done|].
  apply IH. by constructor.
Qed.

Lemma reachable_run ops : reachable (run ops).
Proof. apply reachable_foldl. constructor. Qed.

Lemma run_snoc ops o : run (ops ++ [o]) = apply o (run ops).
Proof. unfold run. by rewrite foldl_app. Qed.

Lemma reachable_is_run s : reachable s → ∃ ops, s = run ops.
Proof.
  induction 1 as [|s o _ [ops ->]]; [by exists []|].
  exists (ops ++ [o]). by rewrite run_snoc.
Qed.

Lemma ids_of_listing (l : list (nat * Conversation)) :
  Forall (λ kc, id kc.2 = kc.1) l → id <$> l.*2 = l.*1.
Proof. induction 1 as [|[k c] l Hkc _ IH]; simpl in *; [done | by f_equal]. Qed.

Lemma filed_by_id_listing s :
  filed_by_id s → id <$> list_conversations s = (map_to_list s).*1.
Proof.
  intros Hs. apply ids_of_listing, Forall_forall. intros [k c] Hin.
  apply Hs. by apply elem_of_map_to_list.
Qed.

Lemma filed_by_id_NoDup s : filed_by_id s → NoDup (id <$> list_conversations s).
Proof.
  intros Hs. rewrite filed_by_id_listing by done. apply NoDup_fst_map_to_list.
Qed.

Lemma filed_by_id_unique s c1 c2 :
  filed_by_id s →
  c1 ∈ list_conversations s → c2 ∈ list_conversations s →
  id c1 = id c2 → c1 = c2.
Proof.
  intros Hs [k1 H1]%elem_of_list_conversations [k2 H2]%elem_of_list_conversations Hid.
  rewrite (Hs _ _ H1), (Hs _ _ H2) in Hid. subst k2. congruence.
Qed.

Lemma apply_keeps o (s : gmap nat Conversation) i c :
  s !! i = Some c → o ≠ Delete i → is_Some (apply o s !! i).
Proof.
  intros Hc Hdel.
  destruct o as [t st now|j m now|j t now|j|j now]; simpl.
  - rewrite lookup_insert_ne; [by eauto|].
    intros Heq. pose proof (create_conversation_fresh t st now s) as Hf.
    simpl in Hf. congruence.
  - unfold append_message. destruct (s !! j) as [cj|] eqn:E; simpl; [|by eauto].
    destruct (decide (j = i)) as [->|Hne];
      [rewrite lookup_insert_eq | rewrite lookup_insert_ne by done]; by eauto.
  - unfold rename_conversation. destruct (s !! j) as [cj|] eqn:E; simpl; [|by eauto].
    destruct (decide (j = i)) as [->|Hne];
      [rewrite lookup_insert_eq | rewrite lookup_insert_ne by done]; by eauto.
  - unfold delete_conversation. destruct (s !! j) as [cj|] eqn:E; simpl; [|by eauto].
    rewrite lookup_delete_ne; [by eauto | congruence].
  - unfold clear_messages. destruct (s !! j) as [cj|] eqn:E; simpl; [|by eauto].
    destruct (decide (j = i)) as [->|Hne];
      [rewrite lookup_insert_eq | rewrite lookup_insert_ne by done]; by eauto.
Qed.

(** Over a history that neither deletes nor clears conversation [i], its
    messages only grow at the end. *)
Lemma history_extends ops (s : gmap nat Conversation) i c c' :
  s !! i = Some c →
  Delete i ∉ ops → (∀ now, Clear i now ∉ ops) →
  foldl (λ s o, apply o s) s ops !! i = Some c' →
  messages c `prefix_of` messages c'.
Proof.
  revert s c. induction ops as [|o ops IH]; intros s c Hc Hdel Hclr; simpl.
  - intros Hc'. by replace c' with c by congruence.
  - intros Hc'.
    destruct (apply_keeps o s i c Hc) as [c1 Hc1]; [set_solver|].
    destruct (apply_lookup o s i c1 Hc1)
      as [(c0 & Hc0 & _ & [Hpre | [[now ->] _]]) | (Hnone & _)].
    + replace c0 with c in Hpre by congruence.
      trans (messages c1); [done|].
      apply (IH (apply o s) c1); [done | set_solver | set_solver | done].
    + destruct (Hclr now). set_solver.
    + congruence.
Qed.

(** ** Properties of the store *)

(** C2. A conversation's messages are a prefix of its messages after an
    append, which adds the new message at the end; over any request on the
    store, a conversation that is still there holds its earlier messages as
    a prefix, in the same order, unless the request is the one that cleared
    it, which leaves it without messages; and so over any history of
    requests that neither deletes nor clears it. *)
Theorem append_preserves_order (s : gmap nat Conversation) i c :
  s !! i = Some c →
  (∀ m now, ∃ s' c',
      append_message i m now s = Some s' ∧ s' !! i = Some c'
      ∧ messages c' = messages c ++ [m]
      ∧ messages c `prefix_of` messages c')
  ∧ (∀ o c', apply o s !! i = Some c' →
             messages c `prefix_of` messages c'
             ∨ (∃ now, o = Clear i now) ∧ messages c' = [])
  ∧ (∀ ops c', Delete i ∉ ops → (∀ now, Clear i now ∉ ops) →
               foldl (λ s o, apply o s) s ops !! i = Some c' →
               messages c `prefix_of` messages c').
Proof.
  intros Hc. split; [|split].
  - intros m now. unfold append_message. rewrite Hc. simpl.
    eexists _, _. split; [done|]. rewrite lookup_insert_eq.
    split; [done|]. split; [done|]. by apply prefix_app_r.
  - intros o c' Hc'.
    destruct (apply_lookup o s i c' Hc') as [(c0 & Hc0 & _ & H) | (Hnone & _)];
      congruence.
  - intros ops c'. by apply history_extends.
Qed.

(** C3. In a reachable store, the id a create returns is the id of no
    conversation listed before, and nothing is filed under it; and every
    reachable store, the one after the create included, lists at most one
    conversation per id. *)
Theorem create_yields_unique_id (s : gmap nat Conversation) t st now :
  reachable s →
  (∀ c, c ∈ list_conversations s → id c ≠ (create_conversation t st now s).1)
  ∧ get_conversation (create_conversation t st now s).1 s = None
  ∧ (∀ s', s' = s ∨ s' = (create_conversation t st now s).2 →
           NoDup (id <$> list_conversations s')
           ∧ ∀ c1 c2, c1 ∈ list_conversations s' → c2 ∈ list_conversations s' →
                      id c1 = id c2 → c1 = c2).
Proof.
  intros Hs. split; [|split].
  - intros c [k Hk]%elem_of_list_conversations Hid.
    rewrite (reachable_filed_by_id s Hs k c Hk) in Hid. subst k.
    by rewrite create_conversation_fresh in Hk.
  - apply create_conversation_fresh.
  - intros s' Hs'.
    assert (reachable s') as Hr.
    { destruct Hs' as [->| ->]; [done|].
      apply (reachable_apply s (Create t st now) Hs). }
    apply reachable_filed_by_id in Hr. split.
    + by apply filed_by_id_NoDup.
    + intros c1 c2. by apply filed_by_id_unique.
Qed.

(** C4. When a reachable store lists a conversation with id [x], deleting
    [x] succeeds, and the store it leaves lists no conversation with id [x]
    and finds none under [x]. *)
Theorem delete_removes_from_listing (s : gmap nat Conversation) x c :
  reachable s →
  c ∈ list_conversations s → id c = x →
  ∃ s', delete_conversation x s = Some s'
        ∧ apply (Delete x) s = s'
        ∧ (∀ c', c' ∈ list_conversations s' → id c' ≠ x)
        ∧ get_conversation x s' = None.
Proof.
  intros Hs [k Hk]%elem_of_list_conversations Hid.
  pose proof (reachable_filed_by_id s Hs) as Hfiled.
  rewrite (Hfiled k c Hk) in Hid. subst k.
  exists (delete x s). unfold apply, delete_conversation. rewrite Hk. simpl.
  repeat split.
  - intros c' [k Hk']%elem_of_list_conversations Hid.
    assert (filed_by_id (delete x s)) as Hfiled'.
    { apply (filed_by_id_apply (Delete x)) in Hfiled.
      revert Hfiled. unfold apply, delete_conversation. by rewrite Hk. }
    rewrite (Hfiled' k c' Hk') in Hid. subst k.
    by rewrite lookup_delete_eq in Hk'.
  - apply lookup_delete_eq.
Qed.

(** ** The properties on the concrete history *)

Example run_two_conversations :
  list_conversations (run two_conversations) =
    [mkConversation 1 "second" [] 2 2 gpt4; first_conversation].
Proof. vm_compute. reflexivity. Qed.

Lemma append_preserves_order_witness :
  ∃ s' c',
    append_message 0 reply 11 (run two_conversations) = Some s'
    ∧ s' !! 0 = Some c'
    ∧ messages c' = messages first_conversation ++ [reply]
    ∧ messages first_conversation `prefix_of` messages c'.
Proof.
  apply (append_preserves_order (run two_conversations) 0 first_conversation).
  vm_compute. reflexivity.
Defined.

Lemma create_yields_unique_id_witness :
  get_conversation (create_conversation "third" gpt4 3 (run two_conversations)).1
    (run two_conversations) = None
  ∧ NoDup (id <$> list_conversations
                    (create_conversation "third" gpt4 3 (run two_conversations)).2).
Proof.
  destruct (create_yields_unique_id (run two_conversations) "third" gpt4 3
              (reachable_run two_conversations)) as (_ & Hnone & Hunique).
  split; [exact Hnone|].
  apply (Hunique _ (or_intror eq_refl)).
Defined.

Lemma delete_removes_from_listing_witness :
  ∃ s', delete_conversation 0 (run two_conversations) = Some s'
        ∧ apply (Delete 0) (run two_conversations) = s'
        ∧ (∀ c', c' ∈ list_conversations s' → id c' ≠ 0)
        ∧ get_conversation 0 s' = None.
Proof.
  apply (delete_removes_from_listing (run two_conversations) 0 first_conversation).
  - apply reachable_run.
  - apply elem_of_list_conversations. exists 0. vm_compute. reflexivity.
  - reflexivity.
Defined.

End Backend.
